(** * Stock chart component (src/App.tsx): state, fetch orchestration, render

    A shallow embedding of the single React component [App].

    - The six [useState] cells form the record [ViewState]; every setter is a
      function on that record and a handler is the composition of the
      setters it calls, in the order of the source.
    - [fetchData] is an [async] function with one [await].  It is split at
      the [await]: [fetchData] is the synchronous prefix (it sets [loading]
      and issues the request), [fetchData_settle] is the continuation, run
      when the promise of [API.get] resolves or rejects.  Requests that are
      issued and not yet settled are kept in [inflight].
    - [API.get] belongs to an external library: what it returns is an input
      of the model.  [Outcome] and [fetchData_settle] cover the values of the
      declared types: a rejection, or a response of the shape the code reads,
      [{ data : StockData[], hasMore : boolean }].  [ApiResult] and
      [fetchData_resume] cover every value the promise can resolve with, also
      the ones that take the [data] cell out of its type.
    - Prices and timestamps are JavaScript numbers, modelled by the binary64
      primitive floats ([d.t / 1000] is the IEEE division).  [page] is a
      counter that starts at 1 and only ever receives 1 or [page + 1]; it is
      modelled by [Z], on which a JavaScript number is exact below 2^53.
    - Strings are the 8-bit strings of the Standard Library, holding text in
      UTF-8.  [String.prototype.toUpperCase] is a built-in of the engine:
      [toUpperCase] is what it does on ASCII text, and the statements about
      arbitrary input take the built-in as the parameter [upper].
    - The chart library is external too: the component's use of it is the
      list of calls it makes ([ChartCall]), with [chartRef] holding the
      chart instance.  The effect on [data] runs at mount and after every
      settlement that stored a new array, its cleanup before each new run
      and at unmount.
*)

From Stdlib Require Import ZArith List String Ascii Bool Lia.
From Stdlib Require Import Floats DecimalString DecimalZ.
Import ListNotations.

Local Open Scope string_scope.
Local Open Scope list_scope.
Local Open Scope Z_scope.

(** ** Data model *)

(** [interface StockData] (lines 20-27). *)
Record StockData : Type := mkStockData {
  t : float;
  o : float;
  h : float;
  l : float;
  c : float;
  v : float
}.

(** The state cells of lines 35-40, in declaration order. *)
Record ViewState : Type := mkViewState {
  data : list StockData;
  loading : bool;
  error : option string;
  symbol : string;
  page : Z;
  hasMore : bool
}.

(** The [useState] initial values. *)
Definition initialState : ViewState :=
  {| data := [];
     loading := true;
     error := None;
     symbol := "AAPL";
     page := 1;
     hasMore := true |}.

(** ** State setters

    [setData] takes an updater, as in [setData(prevData => ...)]; the value
    form [setData(x)] is the constant updater. *)

Definition setData (upd : list StockData -> list StockData) (st : ViewState)
  : ViewState :=
  {| data := upd (data st); loading := loading st; error := error st;
     symbol := symbol st; page := page st; hasMore := hasMore st |}.

Definition setLoading (b : bool) (st : ViewState) : ViewState :=
  {| data := data st; loading := b; error := error st;
     symbol := symbol st; page := page st; hasMore := hasMore st |}.

Definition setError (e : option string) (st : ViewState) : ViewState :=
  {| data := data st; loading := loading st; error := e;
     symbol := symbol st; page := page st; hasMore := hasMore st |}.

Definition setSymbol (s : string) (st : ViewState) : ViewState :=
  {| data := data st; loading := loading st; error := error st;
     symbol := s; page := page st; hasMore := hasMore st |}.

Definition setPage (n : Z) (st : ViewState) : ViewState :=
  {| data := data st; loading := loading st; error := error st;
     symbol := symbol st; page := n; hasMore := hasMore st |}.

Definition setHasMore (b : bool) (st : ViewState) : ViewState :=
  {| data := data st; loading := loading st; error := error st;
     symbol := symbol st; page := page st; hasMore := b |}.

(** Statements in sequence: [f ;; g] runs [f], then [g]. *)
Definition seq_upd (f g : ViewState -> ViewState) : ViewState -> ViewState :=
  fun st => g (f st).

Declare Scope upd_scope.
Delimit Scope upd_scope with upd.
Notation "f ;; g" := (seq_upd f g)
  (at level 61, left associativity) : upd_scope.

(** ** The remote call *)

(** [pageNum.toString()] on an integer-valued number: its decimal digits. *)
Definition number_toString (n : Z) : string :=
  NilZero.string_of_int (Z.to_int n).

(** The arguments of [API.get] (lines 54-56). *)
Record ApiRequest : Type := mkApiRequest {
  apiName : string;
  path : string;
  query_symbol : string;
  query_page : string
}.

(** A call of [fetchData] suspended at its [await]: the request it sent and
    the two parameters its continuation still reads. *)
Record Pending : Type := mkPending {
  request : ApiRequest;
  pageNum : Z;
  append : bool
}.

(** A resolved response of the shape the code expects. *)
Record Response : Type := mkResponse {
  resp_data : list StockData;
  resp_hasMore : bool
}.

(** Why the promise was rejected; the [catch] clause never looks at it. *)
Inductive FailureCause : Type :=
  | TransportError
  | HttpStatus (code : Z)
  | OtherThrown.

(** The outcomes that keep every cell in its declared type; the resolved
    values of another shape are in [ApiResult] below. *)
Inductive Outcome : Type :=
  | Resolved (response : Response)
  | Rejected (cause : FailureCause).

(** ** fetchData (lines 51-71) *)

(** Up to the [await]: [setLoading(true)], then the request is sent with the
    [symbol] of the current render. *)
Definition fetchData (pageNum : Z) (append : bool) (st : ViewState)
  : ViewState * list Pending :=
  (setLoading true st,
   [ {| request := {| apiName := "stockApi";
                      path := "/stock";
                      query_symbol := symbol st;
                      query_page := number_toString pageNum |};
        pageNum := pageNum;
        append := append |} ]).

(** From the [await] on: the rest of the [try] block when the promise
    resolved, the [catch] block when it rejected. *)
Definition fetchData_settle (call : Pending) (out : Outcome)
  : ViewState -> ViewState :=
  match out with
  | Resolved response =>
      ((if append call
        then setData (fun prevData => prevData ++ resp_data response)
        else setData (fun _ => resp_data response)) ;;
       setHasMore (resp_hasMore response) ;;
       setPage (pageNum call) ;;
       setLoading false)%upd
  | Rejected _ =>
      (setError (Some "Failed to fetch data") ;;
       setLoading false)%upd
  end.

(** ** Handlers *)

(** [String.prototype.toUpperCase] on ASCII text. *)
Definition upperChar (ch : ascii) : ascii :=
  let n := nat_of_ascii ch in
  if ((97 <=? n) && (n <=? 122))%nat then ascii_of_nat (n - 32) else ch.

Fixpoint toUpperCase (s : string) : string :=
  match s with
  | EmptyString => EmptyString
  | String ch rest => String (upperChar ch) (toUpperCase rest)
  end.

(** [handleSymbolChange] (lines 110-112); [value] is [event.target.value]. *)
Definition handleSymbolChange (value : string) : ViewState -> ViewState :=
  setSymbol (toUpperCase value).

(** [handleSubmit] (lines 118-121): [fetchData(1)], [append] defaulting to
    [false]. *)
Definition handleSubmit (st : ViewState) : ViewState * list Pending :=
  fetchData 1 false st.

(** [loadMore] (lines 126-130). *)
Definition loadMore (st : ViewState) : ViewState * list Pending :=
  if hasMore st then fetchData (page st + 1) true st else (st, []).

(** The effect of lines 74-76 at mount: it always runs. *)
Definition mountEffect (st : ViewState) : ViewState * list Pending :=
  fetchData 1 false st.

(** The same effect after a re-render: it runs again when its dependency
    [symbol] differs from the one of the previous render, [prev]. *)
Definition symbolEffect (prev : string) (st : ViewState)
  : ViewState * list Pending :=
  if String.eqb prev (symbol st) then (st, []) else fetchData 1 false st.

(** ** Chart data (lines 79-96) *)

Record CandlestickPoint : Type := mkCandlestickPoint {
  time : float;
  open : float;
  high : float;
  low : float;
  close : float
}.

(** The arrow function passed to [data.map] (lines 89-95). *)
Definition toPoint (d : StockData) : CandlestickPoint :=
  {| time := (t d / 1000)%float;
     open := o d;
     high := h d;
     low := l d;
     close := c d |}.

(** What the effect hands to [candlestickSeries.setData], if anything:
    nothing when the container is not attached or [data] is empty. *)
Definition chartEffect (containerAttached : bool) (data : list StockData)
  : option (list CandlestickPoint) :=
  if containerAttached && (0 <? List.length data)%nat
  then Some (map toPoint data)
  else None.

(** ** Render (lines 132-152) *)

(** The parts of the normal view that vary; the form and the chart
    container are always in it. *)
Record NormalView : Type := mkNormalView {
  input_value : string;
  loading_indicator : bool;
  load_more_button : bool
}.

Inductive Rendered : Type :=
  | ErrorMessage (msg : string)
  | Normal (ui : NormalView).

(** Truthiness of a [string | null]: [null] and the empty string are falsy. *)
Definition truthy (e : option string) : bool :=
  match e with
  | None => false
  | Some EmptyString => false
  | Some (String _ _) => true
  end.

Definition render (st : ViewState) : Rendered :=
  match error st with
  | Some msg =>
      if truthy (Some msg) then ErrorMessage msg
      else Normal {| input_value := symbol st;
                     loading_indicator := loading st;
                     load_more_button := hasMore st && negb (loading st) |}
  | None =>
      Normal {| input_value := symbol st;
                loading_indicator := loading st;
                load_more_button := hasMore st && negb (loading st) |}
  end.

Definition rendersForm (r : Rendered) : bool :=
  match r with ErrorMessage _ => false | Normal _ => true end.

Definition rendersChartContainer (r : Rendered) : bool :=
  match r with ErrorMessage _ => false | Normal _ => true end.

Definition rendersLoading (r : Rendered) : bool :=
  match r with ErrorMessage _ => false | Normal ui => loading_indicator ui end.

Definition rendersLoadMore (r : Rendered) : bool :=
  match r with ErrorMessage _ => false | Normal ui => load_more_button ui end.

(** ** The component as a transition system *)

Record Component : Type := mkComponent {
  view : ViewState;
  inflight : list Pending
}.

Inductive Event : Type :=
  | SymbolChange (value : string)
  | Submit
  | ClickLoadMore
  | Settle (n : nat) (out : Outcome).

Definition removeAt {A : Type} (n : nat) (xs : list A) : list A :=
  firstn n xs ++ skipn (S n) xs.

(** A handler ran: its state is committed and its requests join the ones in
    flight. *)
Definition commit (cmp : Component) (r : ViewState * list Pending)
  : Component :=
  {| view := fst r; inflight := inflight cmp ++ snd r |}.

(** First render and its effect. *)
Definition mount : Component :=
  commit {| view := initialState; inflight := [] |} (mountEffect initialState).

(** One event of the page.  A symbol change re-renders and then runs the
    effect on [symbol]; [Settle n out] resumes the [n]-th suspended call of
    [fetchData] with the outcome of its request. *)
Definition step (cmp : Component) (ev : Event) : Component :=
  match ev with
  | SymbolChange value =>
      commit cmp (symbolEffect (symbol (view cmp))
                               (handleSymbolChange value (view cmp)))
  | Submit => commit cmp (handleSubmit (view cmp))
  | ClickLoadMore => commit cmp (loadMore (view cmp))
  | Settle n out =>
      match nth_error (inflight cmp) n with
      | Some call =>
          {| view := fetchData_settle call out (view cmp);
             inflight := removeAt n (inflight cmp) |}
      | None => cmp
      end
  end.

(** The events the rendered page can produce: user events need their
    control on the page, a settlement needs its request in flight. *)
Definition enabled (cmp : Component) (ev : Event) : bool :=
  match ev with
  | SymbolChange _ | Submit => rendersForm (render (view cmp))
  | ClickLoadMore => rendersLoadMore (render (view cmp))
  | Settle n _ => (n <? List.length (inflight cmp))%nat
  end.

Inductive Reachable : Component -> Prop :=
  | reach_mount : Reachable mount
  | reach_step (cmp : Component) (ev : Event) :
      Reachable cmp -> enabled cmp ev = true -> Reachable (step cmp ev).

(** Any sequence of operations, offered by the page or not. *)
Definition run (cmp : Component) (evs : list Event) : Component :=
  fold_left step evs cmp.

(** ** The chart effect and its cleanup (lines 79-104)

    The chart library is seen through the calls the component makes on it.
    [chartRef] is [chartRef.current]: the identifier of the chart instance it
    holds, if any; [created] counts the instances made so far and names the
    next one. *)

Inductive ChartCall : Type :=
  | CreateChart (id : nat) (width height : Z)
  | AddCandlestickSeries (id : nat)
  | SeriesSetData (id : nat) (points : list CandlestickPoint)
  | RemoveChart (id : nat).

Record ChartSink : Type := mkChartSink {
  chartRef : option nat;
  created : nat;
  calls : list ChartCall
}.

Definition emptySink : ChartSink :=
  {| chartRef := None; created := 0%nat; calls := [] |}.

(** The body of the effect (lines 80-96): when there is something to draw,
    make the chart unless the ref holds one, then add a series and give it
    the points. *)
Definition dataEffect (containerAttached : bool) (data : list StockData)
    (s : ChartSink) : ChartSink :=
  match chartEffect containerAttached data with
  | Some points =>
      match chartRef s with
      | Some id =>
          {| chartRef := Some id;
             created := created s;
             calls := calls s ++ [AddCandlestickSeries id;
                                  SeriesSetData id points] |}
      | None =>
          {| chartRef := Some (created s);
             created := S (created s);
             calls := calls s ++ [CreateChart (created s) 600 300;
                                  AddCandlestickSeries (created s);
                                  SeriesSetData (created s) points] |}
      end
  | None => s
  end.

(** The function the effect returns (lines 98-103). *)
Definition dataCleanup (s : ChartSink) : ChartSink :=
  match chartRef s with
  | Some id =>
      {| chartRef := None;
         created := created s;
         calls := calls s ++ [RemoveChart id] |}
  | None => s
  end.

(** The component together with its chart. *)
Record Page : Type := mkPage {
  component : Component;
  sink : ChartSink
}.

(** [chartContainerRef.current] is set while the container element is on
    the page. *)
Definition containerAttached (st : ViewState) : bool :=
  rendersChartContainer (render st).

(** The effect depends on [data]: it runs again when a settlement stored a
    new array, that is when a request in flight resolved. *)
Definition dataChanged (cmp : Component) (ev : Event) : bool :=
  match ev with
  | Settle n (Resolved _) =>
      match nth_error (inflight cmp) n with
      | Some _ => true
      | None => false
      end
  | _ => false
  end.

(** First render: both effects run, the second one on the empty [data]. *)
Definition pageMount : Page :=
  {| component := mount;
     sink := dataEffect (containerAttached (view mount)) (data (view mount))
                        emptySink |}.

(** An event, then the re-render: when [data] changed, the cleanup of the
    previous run and the effect on the new [data]. *)
Definition pageStep (p : Page) (ev : Event) : Page :=
  {| component := step (component p) ev;
     sink :=
       if dataChanged (component p) ev
       then dataEffect (containerAttached (view (step (component p) ev)))
                       (data (view (step (component p) ev)))
                       (dataCleanup (sink p))
       else sink p |}.

(** Removing the component runs the last cleanup. *)
Definition unmount (p : Page) : ChartSink := dataCleanup (sink p).

Inductive PageReachable : Page -> Prop :=
  | page_reach_mount : PageReachable pageMount
  | page_reach_step (p : Page) (ev : Event) :
      PageReachable p -> enabled (component p) ev = true ->
      PageReachable (pageStep p ev).

(** The chart library's protocol, replayed over a list of calls from the
    charts that are alive: a chart is created once, drawn on and removed
    only while alive.  [None] is a violation; otherwise the charts left
    alive. *)
Definition replayCall (alive : option (list nat)) (call : ChartCall)
  : option (list nat) :=
  match alive with
  | None => None
  | Some ids =>
      match call with
      | CreateChart id _ _ =>
          if existsb (Nat.eqb id) ids then None else Some (ids ++ [id])
      | AddCandlestickSeries id | SeriesSetData id _ =>
          if existsb (Nat.eqb id) ids then Some ids else None
      | RemoveChart id =>
          if existsb (Nat.eqb id) ids
          then Some (filter (fun i => negb (Nat.eqb id i)) ids)
          else None
      end
  end.

Definition replay (log : list ChartCall) : option (list nat) :=
  fold_left replayCall log (Some []).

(** Responses arriving one after the other, each settling its call. *)
Definition settleAll (arrivals : list (Pending * Response))
  : ViewState -> ViewState :=
  fun st =>
    fold_left (fun acc cr => fetchData_settle (fst cr) (Resolved (snd cr)) acc)
              arrivals st.

(** ** The page's dispatch *)

(** An event reaches its handler only when its control is on the page:
    [loadMore] has no caller but the Load More button (line 149). *)
Definition dispatch (cmp : Component) (ev : Event) : Component :=
  if enabled cmp ev then step cmp ev else cmp.

(** ** The symbol handler over the built-in

    [upper] stands for [String.prototype.toUpperCase], on any text. *)

Definition handleSymbolChangeWith (upper : string -> string) (value : string)
  : ViewState -> ViewState :=
  setSymbol (upper value).

(** The symbol change as an event: the handler, the re-render and the
    effect on [symbol]. *)
Definition symbolChangeWith (upper : string -> string) (cmp : Component)
    (value : string) : Component :=
  commit cmp (symbolEffect (symbol (view cmp))
                           (handleSymbolChangeWith upper value (view cmp))).

(** Text of ASCII characters only. *)
Fixpoint isAscii (s : string) : bool :=
  match s with
  | EmptyString => true
  | String ch rest => (nat_of_ascii ch <? 128)%nat && isAscii rest
  end.

(** What is used of the built-in: on ASCII text it is [toUpperCase]. *)
Definition AgreesOnAscii (upper : string -> string) : Prop :=
  forall s : string, isAscii s = true -> upper s = toUpperCase s.

(** ** fetchData on any resolved value (lines 52-70)

    The value the promise resolved with, as far as the code reads it:
    [null] or [undefined], on which reading a property throws, or an object
    whose [data] and [hasMore] are there or [undefined] (as for [{}]). *)

Inductive Body : Type :=
  | Nullish
  | Object (dataField : option (list StockData))
           (hasMoreField : option bool).

Inductive ApiResult : Type :=
  | Returns (body : Body)
  | Throws (cause : FailureCause).

(** The [data] cell, also outside its declared type: an array,
    [undefined] after [setData(undefined)], or a pending updater whose
    spread throws when React runs it. *)
Inductive DataCell : Type :=
  | Records (records : list StockData)
  | Undefined
  | UpdaterThrows.

(** The six cells; [hasMore] holds the truthiness of what was stored
    ([undefined] is falsy). *)
Record RawState : Type := mkRawState {
  cell_data : DataCell;
  cell_loading : bool;
  cell_error : option string;
  cell_symbol : string;
  cell_page : Z;
  cell_hasMore : bool
}.

Definition raw (st : ViewState) : RawState :=
  {| cell_data := Records (data st);
     cell_loading := loading st;
     cell_error := error st;
     cell_symbol := symbol st;
     cell_page := page st;
     cell_hasMore := hasMore st |}.

(** The [catch] block (lines 67-70). *)
Definition catchBlock (rs : RawState) : RawState :=
  {| cell_data := cell_data rs;
     cell_loading := false;
     cell_error := Some "Failed to fetch data";
     cell_symbol := cell_symbol rs;
     cell_page := cell_page rs;
     cell_hasMore := cell_hasMore rs |}.

(** [setData(prevData => [...prevData, ...response.data])]: the spread of
    anything but two arrays throws. *)
Definition appendCell (cell : DataCell) (field : option (list StockData))
  : DataCell :=
  match cell, field with
  | Records prevData, Some records => Records (prevData ++ records)
  | _, _ => UpdaterThrows
  end.

(** [setData(response.data)]. *)
Definition replaceCell (field : option (list StockData)) : DataCell :=
  match field with
  | Some records => Records records
  | None => Undefined
  end.

(** From the [await] on.  On [null], [response.data] of line 61 throws at
    once, while the updater of line 59 is only queued and it is
    [response.hasMore] of line 64 that throws.  On an object nothing throws
    and the [catch] block is not reached. *)
Definition fetchData_resume (call : Pending) (res : ApiResult)
    (rs : RawState) : RawState :=
  match res with
  | Throws _ => catchBlock rs
  | Returns Nullish =>
      if append call
      then catchBlock {| cell_data := UpdaterThrows;
                         cell_loading := cell_loading rs;
                         cell_error := cell_error rs;
                         cell_symbol := cell_symbol rs;
                         cell_page := cell_page rs;
                         cell_hasMore := cell_hasMore rs |}
      else catchBlock rs
  | Returns (Object dataField hasMoreField) =>
      {| cell_data := if append call
                      then appendCell (cell_data rs) dataField
                      else replaceCell dataField;
         cell_loading := false;
         cell_error := cell_error rs;
         cell_symbol := cell_symbol rs;
         cell_page := pageNum call;
         cell_hasMore := match hasMoreField with
                         | Some b => b
                         | None => false
                         end |}
  end.

(** Whether the [catch] block runs. *)
Definition entersCatch (res : ApiResult) : bool :=
  match res with
  | Throws _ => true
  | Returns Nullish => true
  | Returns (Object _ _) => false
  end.

(** The next render or effect throws: the updater when React runs it, or
    [data.length] of line 80 on [undefined]. *)
Definition throwsOnRender (rs : RawState) : bool :=
  match cell_data rs with
  | Records _ => false
  | Undefined => true
  | UpdaterThrows => true
  end.

(** ** Predicates used in the statements *)

(** A lower-case ASCII letter, and a string that contains one. *)
Definition isLower (ch : ascii) : bool :=
  let n := nat_of_ascii ch in ((97 <=? n) && (n <=? 122))%nat.

Fixpoint hasLower (s : string) : bool :=
  match s with
  | EmptyString => false
  | String ch rest => isLower ch || hasLower rest
  end.

(** The only message the component ever stores. *)
Definition fetchFailed : string := "Failed to fetch data".

(** In every state the component can be in, [error] is [null] or that
    message. *)
Definition ErrorIsLiteral (st : ViewState) : Prop :=
  error st = None \/ error st = Some fetchFailed.

(** Page numbers, stored or on their way, are positive. *)
Definition PagesPositive (cmp : Component) : Prop :=
  0 < page (view cmp) /\ Forall (fun p => 0 < pageNum p) (inflight cmp).

(** A request as the component builds it: the fixed API name and path, the
    decimal digits of its page, page 1 to replace and a later page to
    append. *)
Definition RequestWellFormed (p : Pending) : Prop :=
  apiName (request p) = "stockApi" /\
  path (request p) = "/stock" /\
  query_page (request p) = number_toString (pageNum p) /\
  (if append p then 2 <= pageNum p else pageNum p = 1).

(** No lower-case letter in the stored symbol nor in a symbol on its way. *)
Definition SymbolsUpper (cmp : Component) : Prop :=
  hasLower (symbol (view cmp)) = false /\
  Forall (fun p => hasLower (query_symbol (request p)) = false)
         (inflight cmp).

(** The charts alive are the one in the ref, if any. *)
Definition aliveOf (s : ChartSink) : list nat :=
  match chartRef s with
  | Some id => [id]
  | None => []
  end.

(** The component's use of the chart library respects the protocol. *)
Definition SinkConsistent (s : ChartSink) : Prop :=
  replay (calls s) = Some (aliveOf s).

(** A chart in the ref was made for the records now held and shows them. *)
Definition ChartShowsData (p : Page) : Prop :=
  forall id : nat,
    chartRef (sink p) = Some id ->
    data (view (component p)) <> [] /\
    exists earlier : list ChartCall,
      calls (sink p) =
      earlier ++ [CreateChart id 600 300;
                  AddCandlestickSeries id;
                  SeriesSetData id (map toPoint (data (view (component p))))].

(** ** Worked scenarios *)

Definition bar (ms : float) : StockData :=
  {| t := ms; o := 10; h := 12; l := 9; c := 11; v := 1000 |}.

Definition fiveBars : list StockData :=
  [bar 1700000000000; bar 1700000060000; bar 1700000120000;
   bar 1700000180000; bar 1700000240000].

(** ** Basic facts *)

Section ListFacts.
Context {A : Type}.

Lemma removeAt_In (n : nat) (xs : list A) (x : A) :
  In x (removeAt n xs) -> In x xs.
Proof.
  revert n.
  induction xs as [|y ys IH]; intros [|n]; unfold removeAt; simpl; auto.
  intros [Hx | Hx]; [now left | right].
  apply (IH n). exact Hx.
Qed.

Lemma removeAt_Forall (P : A -> Prop) (n : nat) (xs : list A) :
  Forall P xs -> Forall P (removeAt n xs).
Proof.
  rewrite !Forall_forall.
  intros Hall x Hx. apply Hall. eapply removeAt_In. exact Hx.
Qed.

Lemma removeAt_beyond (n : nat) (xs : list A) :
  nth_error xs n = None -> removeAt n xs = xs.
Proof.
  intros Hnone. apply nth_error_None in Hnone.
  unfold removeAt.
  rewrite firstn_all2 by exact Hnone.
  rewrite skipn_all2 by lia.
  apply app_nil_r.
Qed.
End ListFacts.

(** The continuation on a resolved promise, field by field. *)
Lemma settle_resolved (call : Pending) (response : Response) (st : ViewState) :
  fetchData_settle call (Resolved response) st =
  {| data := if append call then data st ++ resp_data response
             else resp_data response;
     loading := false;
     error := error st;
     symbol := symbol st;
     page := pageNum call;
     hasMore := resp_hasMore response |}.
Proof.
  unfold fetchData_settle, seq_upd.
  destruct (append call); reflexivity.
Qed.

(** The continuation on a rejected promise, field by field. *)
Lemma settle_rejected (call : Pending) (cause : FailureCause) (st : ViewState) :
  fetchData_settle call (Rejected cause) st =
  {| data := data st;
     loading := false;
     error := Some "Failed to fetch data";
     symbol := symbol st;
     page := page st;
     hasMore := hasMore st |}.
Proof. reflexivity. Qed.

(** Every call of [fetchData] sends one request, for the page it was given. *)
Lemma fetchData_issues (n : Z) (a : bool) (st : ViewState) (call : Pending) :
  In call (snd (fetchData n a st)) ->
  pageNum call = n /\ append call = a /\
  query_symbol (request call) = symbol st /\
  query_page (request call) = number_toString n.
Proof.
  simpl. intros [Hcall | []]. subst call. simpl. auto.
Qed.

(** Settling removes the settled request and sends nothing. *)
Lemma settle_inflight (cmp : Component) (n : nat) (out : Outcome) :
  inflight (step cmp (Settle n out)) = removeAt n (inflight cmp).
Proof.
  simpl. destruct (nth_error (inflight cmp) n) eqn:Hnth.
  - reflexivity.
  - symmetry. apply removeAt_beyond. exact Hnth.
Qed.

(** *** Upper-casing *)

Lemma upperChar_not_lower (ch : ascii) : isLower (upperChar ch) = false.
Proof.
  destruct ch as [[] [] [] [] [] [] [] []]; reflexivity.
Qed.

Lemma upperChar_fixes_non_lower (ch : ascii) :
  isLower ch = false -> upperChar ch = ch.
Proof.
  unfold isLower, upperChar. intros Hlow. rewrite Hlow. reflexivity.
Qed.

Lemma toUpperCase_no_lower (s : string) : hasLower (toUpperCase s) = false.
Proof.
  induction s as [|ch rest IH]; simpl.
  - reflexivity.
  - rewrite upperChar_not_lower, IH. reflexivity.
Qed.

Lemma toUpperCase_idempotent (s : string) :
  toUpperCase (toUpperCase s) = toUpperCase s.
Proof.
  induction s as [|ch rest IH]; simpl.
  - reflexivity.
  - rewrite IH.
    rewrite (upperChar_fixes_non_lower (upperChar ch) (upperChar_not_lower ch)).
    reflexivity.
Qed.

Lemma toUpperCase_length (s : string) :
  String.length (toUpperCase s) = String.length s.
Proof.
  induction s as [|ch rest IH]; simpl; congruence.
Qed.

(** *** Invariants of the transition system *)

Lemma fetchData_view (n : Z) (a : bool) (st : ViewState) :
  fst (fetchData n a st) = setLoading true st.
Proof. reflexivity. Qed.

Lemma step_error_literal (cmp : Component) (ev : Event) :
  ErrorIsLiteral (view cmp) -> ErrorIsLiteral (view (step cmp ev)).
Proof.
  unfold ErrorIsLiteral. intros Hlit.
  destruct ev as [value | | | n out]; simpl.
  - unfold symbolEffect.
    destruct (String.eqb _ _); simpl; exact Hlit.
  - exact Hlit.
  - unfold loadMore. destruct (hasMore (view cmp)); simpl; exact Hlit.
  - destruct (nth_error (inflight cmp) n) as [call|]; [|exact Hlit].
    destruct out as [response | cause]; cbn [view].
    + rewrite settle_resolved. exact Hlit.
    + rewrite settle_rejected. right. reflexivity.
Qed.

Lemma reachable_error_literal (cmp : Component) :
  Reachable cmp -> ErrorIsLiteral (view cmp).
Proof.
  induction 1 as [|cmp ev _ IH _].
  - left. reflexivity.
  - apply step_error_literal. exact IH.
Qed.

(** A stored error survives every operation. *)
Lemma step_keeps_error (cmp : Component) (ev : Event) :
  error (view cmp) = Some fetchFailed ->
  error (view (step cmp ev)) = Some fetchFailed.
Proof.
  intros Herr.
  destruct ev as [value | | | n out]; simpl.
  - unfold symbolEffect.
    destruct (String.eqb _ _); simpl; exact Herr.
  - exact Herr.
  - unfold loadMore. destruct (hasMore (view cmp)); simpl; exact Herr.
  - destruct (nth_error (inflight cmp) n) as [call|]; [|exact Herr].
    destruct out as [response | cause]; cbn [view].
    + rewrite settle_resolved. exact Herr.
    + rewrite settle_rejected. reflexivity.
Qed.

Lemma run_keeps_error (evs : list Event) (cmp : Component) :
  error (view cmp) = Some fetchFailed ->
  error (view (run cmp evs)) = Some fetchFailed.
Proof.
  revert cmp.
  induction evs as [|ev evs IH]; intros cmp Herr; simpl.
  - exact Herr.
  - apply IH. apply step_keeps_error. exact Herr.
Qed.

Lemma render_error (st : ViewState) :
  error st = Some fetchFailed -> render st = ErrorMessage fetchFailed.
Proof.
  unfold render. intros Herr. rewrite Herr. reflexivity.
Qed.

Lemma commit_pages_positive (cmp : Component) (r : ViewState * list Pending) :
  PagesPositive cmp ->
  page (fst r) = page (view cmp) ->
  Forall (fun p => 0 < pageNum p) (snd r) ->
  PagesPositive (commit cmp r).
Proof.
  intros [Hpage Hall] Hsame Hnew.
  split; simpl.
  - rewrite Hsame. exact Hpage.
  - apply Forall_app. split; assumption.
Qed.

Lemma step_pages_positive (cmp : Component) (ev : Event) :
  PagesPositive cmp -> PagesPositive (step cmp ev).
Proof.
  intros Hinv.
  destruct ev as [value | | | n out]; cbn [step].
  - apply commit_pages_positive; [exact Hinv | |];
      unfold symbolEffect, handleSymbolChange;
      destruct (String.eqb _ _); simpl; auto.
    constructor; [cbn; lia | constructor].
  - apply commit_pages_positive; [exact Hinv | reflexivity |].
    simpl. constructor; [cbn; lia | constructor].
  - apply commit_pages_positive; [exact Hinv | |];
      unfold loadMore; destruct (hasMore (view cmp)); simpl; auto.
    destruct Hinv as [Hpage _].
    constructor; [cbn; lia | constructor].
  - destruct (nth_error (inflight cmp) n) as [call|] eqn:Hnth; [|exact Hinv].
    destruct Hinv as [Hpage Hall].
    split; cbn [view inflight].
    + destruct out as [response | cause].
      * rewrite settle_resolved. cbn [page].
        rewrite Forall_forall in Hall. apply Hall.
        eapply nth_error_In. exact Hnth.
      * rewrite settle_rejected. exact Hpage.
    + apply removeAt_Forall. exact Hall.
Qed.

Lemma mount_pages_positive : PagesPositive mount.
Proof.
  split; simpl.
  - lia.
  - constructor; [cbn; lia | constructor].
Qed.

Lemma reachable_pages_positive (cmp : Component) :
  Reachable cmp -> PagesPositive cmp.
Proof.
  induction 1 as [|cmp ev _ IH _].
  - exact mount_pages_positive.
  - apply step_pages_positive. exact IH.
Qed.

(** ** The load-more transition *)

(** [loadMore] in closed form, and when its button is on the page. *)
Lemma loadMore_closed_form (st : ViewState) :
  loadMore st =
    (if hasMore st
     then (setLoading true st,
           [ {| request := {| apiName := "stockApi"; path := "/stock";
                              query_symbol := symbol st;
                              query_page := number_toString (page st + 1) |};
                pageNum := page st + 1;
                append := true |} ])
     else (st, []))
  /\ rendersLoadMore (render st) =
       hasMore st && negb (loading st) && negb (truthy (error st)).
Proof.
  split.
  - unfold loadMore. destruct (hasMore st); reflexivity.
  - unfold render.
    destruct (error st) as [[|ch msg]|]; simpl;
      destruct (hasMore st), (loading st); reflexivity.
Qed.

(** C1: in every state, when [hasMore] is false or [loading] is true the
    load more does nothing: its button is not on the page, so [loadMore] is
    not called, no request is sent and the state is unchanged; with
    [hasMore] false [loadMore] itself does nothing either.  Otherwise
    [loadMore] sets [loading] and sends exactly one request, for [page + 1]
    with [append = true], and that is what its button does whenever it is
    on the page, that is unless the error message is shown. *)
Theorem load_more_is_guarded (cmp : Component) :
  let call := {| request := {| apiName := "stockApi"; path := "/stock";
                               query_symbol := symbol (view cmp);
                               query_page :=
                                 number_toString (page (view cmp) + 1) |};
                 pageNum := page (view cmp) + 1;
                 append := true |} in
  (hasMore (view cmp) = false \/ loading (view cmp) = true ->
   enabled cmp ClickLoadMore = false /\
   dispatch cmp ClickLoadMore = cmp) /\
  (hasMore (view cmp) = false -> loadMore (view cmp) = (view cmp, [])) /\
  (hasMore (view cmp) = true -> loading (view cmp) = false ->
   loadMore (view cmp) = (setLoading true (view cmp), [call]) /\
   enabled cmp ClickLoadMore = negb (truthy (error (view cmp))) /\
   (enabled cmp ClickLoadMore = true ->
    dispatch cmp ClickLoadMore =
    {| view := setLoading true (view cmp);
       inflight := inflight cmp ++ [call] |})).
Proof.
  cbv zeta.
  destruct (loadMore_closed_form (view cmp)) as [Hload Hbutton].
  split; [|split].
  - intros Hguard.
    assert (Hoff : enabled cmp ClickLoadMore = false).
    { cbn [enabled]. rewrite Hbutton.
      destruct Hguard as [Hmore | Hloading];
        [rewrite Hmore; reflexivity |].
      rewrite Hloading. cbn. rewrite andb_false_r. reflexivity. }
    split; [exact Hoff |].
    unfold dispatch. rewrite Hoff. reflexivity.
  - intros Hmore. rewrite Hload, Hmore. reflexivity.
  - intros Hmore Hloading.
    split; [rewrite Hload, Hmore; reflexivity | split].
    + cbn [enabled]. rewrite Hbutton, Hmore, Hloading. reflexivity.
    + intros Hon. unfold dispatch. rewrite Hon.
      cbn [step]. rewrite Hload, Hmore. reflexivity.
Qed.

(** Right after the mount [loading] is true: nothing happens.  Once the
    first page is there, the button sends the request for page 2. *)
Lemma load_more_is_guarded_witness :
  let loaded := step mount (Settle 0 (Resolved {| resp_data := fiveBars;
                                                  resp_hasMore := true |})) in
  (loading (view mount) = true /\
   enabled mount ClickLoadMore = false /\
   dispatch mount ClickLoadMore = mount) /\
  (hasMore (view loaded) = true /\ loading (view loaded) = false /\
   enabled loaded ClickLoadMore = true /\
   map pageNum (inflight (dispatch loaded ClickLoadMore)) = [2]).
Proof.
  intros loaded. split.
  - split; [reflexivity |].
    apply (load_more_is_guarded mount). right. reflexivity.
  - split; [reflexivity | split; [reflexivity | split; [reflexivity |]]].
    destruct (load_more_is_guarded loaded) as (_ & _ & Hgo).
    destruct (Hgo eq_refl eq_refl) as (_ & _ & Hsend).
    rewrite (Hsend eq_refl). reflexivity.
Defined.

(** C2: when a load-more request resolves, the records become the records
    held at that moment followed by the records of the response, in that
    order. *)
Theorem load_more_appends
    (st prior : ViewState) (call : Pending) (response : Response) :
  In call (snd (loadMore st)) ->
  data (fetchData_settle call (Resolved response) prior) =
  data prior ++ resp_data response.
Proof.
  unfold loadMore. intros Hcall.
  destruct (hasMore st); [|destruct Hcall].
  apply fetchData_issues in Hcall.
  destruct Hcall as (_ & Happend & _).
  rewrite settle_resolved. cbn [data].
  rewrite Happend. reflexivity.
Qed.

(** The initial state has [hasMore]: its load-more request, resolving on
    five held records, appends the two new ones. *)
Lemma load_more_appends_witness :
  let call := {| request := {| apiName := "stockApi"; path := "/stock";
                               query_symbol := "AAPL"; query_page := "2" |};
                 pageNum := 2; append := true |} in
  let prior := setData (fun _ => fiveBars) initialState in
  let response := {| resp_data := [bar 1700000300000; bar 1700000360000];
                     resp_hasMore := false |} in
  In call (snd (loadMore initialState)) /\
  data (fetchData_settle call (Resolved response) prior) =
  fiveBars ++ [bar 1700000300000; bar 1700000360000].
Proof.
  split.
  - left. reflexivity.
  - apply (load_more_appends initialState). left. reflexivity.
Defined.

(** ** Outcome of a fetch *)

(** C3: when the request of [fetchData(n, a)] resolves, [loading] is false,
    [page] is [n] and [hasMore] is the flag of the response. *)
Theorem successful_fetch_state
    (n : Z) (a : bool) (issuedIn st : ViewState)
    (call : Pending) (response : Response) :
  In call (snd (fetchData n a issuedIn)) ->
  loading (fetchData_settle call (Resolved response) st) = false /\
  page (fetchData_settle call (Resolved response) st) = n /\
  hasMore (fetchData_settle call (Resolved response) st) =
    resp_hasMore response.
Proof.
  intros Hcall. apply fetchData_issues in Hcall.
  destruct Hcall as (Hpage & _).
  rewrite settle_resolved. cbn [loading page hasMore].
  auto.
Qed.

(** The request of the mount, resolving with five bars. *)
Lemma successful_fetch_state_witness :
  let call := {| request := {| apiName := "stockApi"; path := "/stock";
                               query_symbol := "AAPL"; query_page := "1" |};
                 pageNum := 1; append := false |} in
  let response := {| resp_data := fiveBars; resp_hasMore := true |} in
  let st := fetchData_settle call (Resolved response) (view mount) in
  In call (snd (fetchData 1 false initialState)) /\
  (loading st = false /\ page st = 1 /\ hasMore st = true).
Proof.
  split.
  - left. reflexivity.
  - apply (successful_fetch_state 1 false initialState). left. reflexivity.
Defined.

(** On the values of the declared types, [fetchData_resume] is
    [fetchData_settle]. *)
Lemma resume_refines_settle (call : Pending) (st : ViewState) :
  (forall response : Response,
      fetchData_resume call
        (Returns (Object (Some (resp_data response))
                         (Some (resp_hasMore response)))) (raw st)
      = raw (fetchData_settle call (Resolved response) st)) /\
  (forall cause : FailureCause,
      fetchData_resume call (Throws cause) (raw st)
      = raw (fetchData_settle call (Rejected cause) st)).
Proof.
  split.
  - intros response. rewrite settle_resolved.
    unfold fetchData_resume, raw. cbn.
    destruct (append call); reflexivity.
  - intros cause. reflexivity.
Qed.

(** C4, as stated, does not hold for a malformed payload.  When the request
    of the mount resolves with [{}], lines 61-66 run without throwing: the
    [catch] block is not reached, [error] stays [null] and [loading] becomes
    false, while [data] holds [undefined], on which the effect of line 80
    throws. *)
Lemma empty_object_sets_no_error :
  let call := {| request := {| apiName := "stockApi"; path := "/stock";
                               query_symbol := "AAPL"; query_page := "1" |};
                 pageNum := 1; append := false |} in
  let after := fetchData_resume call (Returns (Object None None))
                                (raw (view mount)) in
  inflight mount = [call] /\
  cell_error after = None /\
  cell_error after <> Some "Failed to fetch data" /\
  cell_loading after = false /\
  cell_data after = Undefined /\
  throwsOnRender after = true.
Proof.
  cbv zeta. repeat split. discriminate.
Qed.

(** C4, amended: after every fetch that throws inside the [try] block
    ([API.get] rejecting, whatever the cause, or resolving with [null] or
    [undefined]), [error] is exactly "Failed to fetch data" and [loading] is
    false; all causes give the same state, which on the declared types is
    the one of [fetchData_settle]; settling sends no request.  A payload that
    resolves with an object, malformed or not, is not a failure for the
    code: [error] is left as it was, and [loading] becomes false all the
    same. *)
Theorem thrown_fetch_sets_error
    (call : Pending) (res : ApiResult) (rs : RawState) :
  cell_error (fetchData_resume call res rs)
    = (if entersCatch res then Some "Failed to fetch data"
       else cell_error rs) /\
  cell_loading (fetchData_resume call res rs) = false /\
  (forall cause cause' : FailureCause,
      fetchData_resume call (Throws cause) rs
      = fetchData_resume call (Throws cause') rs) /\
  (forall (cause : FailureCause) (st : ViewState),
      fetchData_resume call (Throws cause) (raw st)
      = raw (fetchData_settle call (Rejected cause) st) /\
      error (fetchData_settle call (Rejected cause) st)
      = Some "Failed to fetch data" /\
      loading (fetchData_settle call (Rejected cause) st) = false) /\
  (forall (cmp : Component) (n : nat) (cause : FailureCause),
      inflight (step cmp (Settle n (Rejected cause)))
      = removeAt n (inflight cmp)).
Proof.
  split; [|split; [|split; [|split]]].
  - destruct res as [[|dataField hasMoreField] | cause]; cbn;
      try destruct (append call); reflexivity.
  - destruct res as [[|dataField hasMoreField] | cause]; cbn;
      try destruct (append call); reflexivity.
  - reflexivity.
  - intros cause st. repeat split.
  - intros cmp n cause. apply settle_inflight.
Qed.


(** ** Form handlers *)

(** C5: submitting the form sets [loading] and sends exactly one request,
    for page 1 of the current symbol with [append = false], whether or not
    the symbol changed since the last fetch; when that request resolves, the
    records are the records of the response, whatever records were held. *)
Theorem submit_fetches_page_one (st : ViewState) :
  let call := {| request := {| apiName := "stockApi"; path := "/stock";
                               query_symbol := symbol st;
                               query_page := "1" |};
                 pageNum := 1;
                 append := false |} in
  handleSubmit st = (setLoading true st, [call]) /\
  (forall (cmp : Component),
      view cmp = st ->
      inflight (step cmp Submit) = inflight cmp ++ [call]) /\
  (forall (held : ViewState) (response : Response),
      data (fetchData_settle call (Resolved response) held)
      = resp_data response).
Proof.
  cbv zeta. split; [reflexivity | split].
  - intros cmp Hview. simpl. rewrite Hview. reflexivity.
  - intros held response. rewrite settle_resolved. reflexivity.
Qed.

(** The handler of the file is the handler over the built-in, at the
    ASCII [toUpperCase]. *)
Lemma handleSymbolChange_instance (value : string) (st : ViewState) :
  handleSymbolChange value st = handleSymbolChangeWith toUpperCase value st.
Proof. reflexivity. Qed.

Lemma toUpperCase_agrees_on_ascii : AgreesOnAscii toUpperCase.
Proof. intros s _. reflexivity. Qed.

(** C6: for every input, the symbol-change handler stores the upper-case
    form the built-in gives of it and touches no other cell, and the fetch
    that follows, from the effect on [symbol] or from a submit, queries that
    stored form.  The built-in being what it is on ASCII text, typing "aapl"
    stores "AAPL" and the fetch queries "AAPL". *)
Theorem symbol_change_uppercases
    (upper : string -> string) (value : string) (st : ViewState) :
  AgreesOnAscii upper ->
  symbol (handleSymbolChangeWith upper value st) = upper value /\
  handleSymbolChangeWith upper value st = setSymbol (upper value) st /\
  map (fun p => query_symbol (request p))
      (snd (symbolEffect (symbol st) (handleSymbolChangeWith upper value st)))
    = (if String.eqb (symbol st) (upper value) then [] else [upper value]) /\
  map (fun p => query_symbol (request p))
      (snd (handleSubmit (handleSymbolChangeWith upper value st)))
    = [upper value] /\
  symbol (handleSymbolChangeWith upper "aapl" st) = "AAPL" /\
  map (fun p => query_symbol (request p))
      (snd (handleSubmit (handleSymbolChangeWith upper "aapl" st)))
    = ["AAPL"].
Proof.
  intros Hascii.
  assert (Haapl : upper "aapl" = "AAPL").
  { rewrite (Hascii "aapl" eq_refl). reflexivity. }
  split; [reflexivity | split; [reflexivity | split; [|split; [|split]]]].
  - unfold symbolEffect, handleSymbolChangeWith. cbn [symbol setSymbol].
    destruct (String.eqb (symbol st) (upper value)); reflexivity.
  - reflexivity.
  - cbn. exact Haapl.
  - cbn. rewrite Haapl. reflexivity.
Qed.

(** With the ASCII [toUpperCase] for the built-in, "tsla" is typed over
    "AAPL". *)
Lemma symbol_change_uppercases_witness :
  AgreesOnAscii toUpperCase /\
  (symbol (handleSymbolChangeWith toUpperCase "tsla" initialState) = "TSLA" /\
   handleSymbolChangeWith toUpperCase "tsla" initialState
     = setSymbol "TSLA" initialState /\
   map (fun p => query_symbol (request p))
       (snd (symbolEffect (symbol initialState)
               (handleSymbolChangeWith toUpperCase "tsla" initialState)))
     = ["TSLA"] /\
   map (fun p => query_symbol (request p))
       (snd (handleSubmit
               (handleSymbolChangeWith toUpperCase "tsla" initialState)))
     = ["TSLA"] /\
   symbol (handleSymbolChangeWith toUpperCase "aapl" initialState)
     = "AAPL" /\
   map (fun p => query_symbol (request p))
       (snd (handleSubmit
               (handleSymbolChangeWith toUpperCase "aapl" initialState)))
     = ["AAPL"]).
Proof.
  split; [exact toUpperCase_agrees_on_ascii |].
  exact (symbol_change_uppercases toUpperCase "tsla" initialState
           toUpperCase_agrees_on_ascii).
Defined.

(** ** Chart data *)

(** C7: the chart transform maps a record to the point with
    [time = t / 1000], [open = o], [high = h], [low = l], [close = c]; the
    point does not depend on the volume [v]; a record with
    [t = 1700000000000] has [time = 1700000000]; and the series receives
    the points of the records, in order. *)
Theorem chart_transform (d : StockData) :
  toPoint d = {| time := (t d / 1000)%float;
                 open := o d; high := h d; low := l d; close := c d |} /\
  (forall vol : float,
      toPoint {| t := t d; o := o d; h := h d; l := l d; c := c d; v := vol |}
      = toPoint d) /\
  time (toPoint {| t := 1700000000000%float;
                   o := o d; h := h d; l := l d; c := c d; v := v d |})
    = 1700000000%float /\
  (forall rest : list StockData,
      chartEffect true (d :: rest) = Some (toPoint d :: map toPoint rest)).
Proof.
  repeat split.
Qed.

(** ** The error state *)

(** C8: from a reachable state in which [error] is set, every sequence of
    operations (symbol changes, submits, load-more calls, settlements of
    either kind) ends in a state where [error] is still that message, and in
    each such state the render is the error message alone: no form, no chart
    container, no loading indicator, no Load More button. *)
Theorem error_is_permanent
    (cmp : Component) (msg : string) (evs : list Event) :
  Reachable cmp ->
  error (view cmp) = Some msg ->
  error (view (run cmp evs)) = Some msg /\
  render (view (run cmp evs)) = ErrorMessage msg /\
  rendersForm (render (view (run cmp evs))) = false /\
  rendersChartContainer (render (view (run cmp evs))) = false /\
  rendersLoading (render (view (run cmp evs))) = false /\
  rendersLoadMore (render (view (run cmp evs))) = false.
Proof.
  intros Hreach Herr.
  assert (Hmsg : msg = fetchFailed).
  { destruct (reachable_error_literal cmp Hreach) as [Hnone | Hlit];
      congruence. }
  subst msg.
  pose proof (run_keeps_error evs cmp Herr) as Hkept.
  rewrite (render_error _ Hkept).
  repeat split. exact Hkept.
Qed.

(** The request of the mount fails with a status 500; four more operations
    follow. *)
Lemma error_is_permanent_witness :
  let failed := step mount (Settle 0 (Rejected (HttpStatus 500))) in
  let evs := [SymbolChange "msft"; Submit; ClickLoadMore;
              Settle 0 (Resolved {| resp_data := fiveBars;
                                    resp_hasMore := true |})] in
  Reachable failed /\
  error (view failed) = Some "Failed to fetch data" /\
  (error (view (run failed evs)) = Some "Failed to fetch data" /\
   render (view (run failed evs)) = ErrorMessage "Failed to fetch data" /\
   rendersForm (render (view (run failed evs))) = false /\
   rendersChartContainer (render (view (run failed evs))) = false /\
   rendersLoading (render (view (run failed evs))) = false /\
   rendersLoadMore (render (view (run failed evs))) = false).
Proof.
  assert (Hreach :
    Reachable (step mount (Settle 0 (Rejected (HttpStatus 500))))).
  { apply reach_step; [apply reach_mount | reflexivity]. }
  split; [exact Hreach | split; [reflexivity |]].
  apply (error_is_permanent _ _ _ Hreach). reflexivity.
Defined.

(** ** The page counter *)

(** C10: [page] is positive in every reachable state.  It starts at 1; the
    request of a submit, of the mount and of a symbol change sets it to 1
    when it resolves; the request of a load more sets it to the [page] held
    when [loadMore] was called, plus 1. *)
Theorem page_is_positive (cmp : Component) :
  Reachable cmp ->
  0 < page (view cmp) /\
  page initialState = 1 /\
  (forall (st held : ViewState) (call : Pending) (response : Response),
      In call (snd (handleSubmit st)) \/
      In call (snd (mountEffect st)) \/
      (exists prev, In call (snd (symbolEffect prev st))) ->
      page (fetchData_settle call (Resolved response) held) = 1) /\
  (forall (st held : ViewState) (call : Pending) (response : Response),
      In call (snd (loadMore st)) ->
      page (fetchData_settle call (Resolved response) held) = page st + 1).
Proof.
  intros Hreach.
  split; [apply reachable_pages_positive; exact Hreach |].
  split; [reflexivity |].
  split.
  - intros st held call response Hcall.
    rewrite settle_resolved. cbn [page].
    destruct Hcall as [Hcall | [Hcall | [prev Hcall]]].
    + apply fetchData_issues in Hcall. tauto.
    + apply fetchData_issues in Hcall. tauto.
    + unfold symbolEffect in Hcall.
      destruct (String.eqb prev (symbol st)); [destruct Hcall |].
      apply fetchData_issues in Hcall. tauto.
  - intros st held call response Hcall.
    rewrite settle_resolved. cbn [page].
    unfold loadMore in Hcall.
    destruct (hasMore st); [|destruct Hcall].
    apply fetchData_issues in Hcall. tauto.
Qed.

(** Mount, first page, load more, second page: [page] is 2. *)
Lemma page_is_positive_witness :
  let loaded := run mount
      [Settle 0 (Resolved {| resp_data := fiveBars; resp_hasMore := true |});
       ClickLoadMore;
       Settle 0 (Resolved {| resp_data := [bar 1700000300000];
                             resp_hasMore := false |})] in
  Reachable loaded /\ page (view loaded) = 2 /\ 0 < page (view loaded).
Proof.
  assert (Hreach : Reachable (run mount
      [Settle 0 (Resolved {| resp_data := fiveBars; resp_hasMore := true |});
       ClickLoadMore;
       Settle 0 (Resolved {| resp_data := [bar 1700000300000];
                             resp_hasMore := false |})])).
  { unfold run. cbn [fold_left].
    repeat (apply reach_step; [| reflexivity]).
    apply reach_mount. }
  split; [exact Hreach | split; [reflexivity |]].
  apply (page_is_positive _ Hreach).
Defined.

(** ** Scenarios *)

(** Mount with the default symbol: one request for ("AAPL", page 1); a
    response of five bars with [hasMore] leaves five records, page 1,
    [hasMore] true and [loading] false. *)
Example mount_scenario :
  map request (inflight mount) =
    [ {| apiName := "stockApi"; path := "/stock";
         query_symbol := "AAPL"; query_page := "1" |} ] /\
  view (step mount (Settle 0 (Resolved {| resp_data := fiveBars;
                                          resp_hasMore := true |}))) =
    {| data := fiveBars; loading := false; error := None;
       symbol := "AAPL"; page := 1; hasMore := true |}.
Proof. split; reflexivity. Qed.

(** Typing "tsla" and submitting: both requests query "TSLA", and the
    response replaces the records. *)
Example tsla_scenario :
  let loaded := step mount (Settle 0 (Resolved {| resp_data := fiveBars;
                                                  resp_hasMore := true |})) in
  let typed := run loaded [SymbolChange "tsla"; Submit] in
  map (fun p => query_symbol (request p)) (inflight typed)
    = ["TSLA"; "TSLA"] /\
  data (view (run typed
                [Settle 0 (Resolved {| resp_data := [bar 1700000300000];
                                       resp_hasMore := false |})]))
    = [bar 1700000300000].
Proof. split; reflexivity. Qed.

(** ** Further properties of the handlers and of the transition system *)

Lemma toUpperCase_fixes_upper (s : string) :
  hasLower s = false -> toUpperCase s = s.
Proof.
  induction s as [|ch rest IH]; simpl.
  - reflexivity.
  - intros Hlow. apply orb_false_iff in Hlow. destruct Hlow as [Hch Hrest].
    rewrite (upperChar_fixes_non_lower ch Hch), (IH Hrest). reflexivity.
Qed.

(** The step on a symbol change, in closed form. *)
Lemma step_symbol_change
    (cmp : Component) (value : string) :
  step cmp (SymbolChange value) =
  if String.eqb (symbol (view cmp)) (toUpperCase value)
  then cmp
  else {| view := setLoading true (setSymbol (toUpperCase value) (view cmp));
          inflight :=
            inflight cmp ++
            [ {| request := {| apiName := "stockApi"; path := "/stock";
                               query_symbol := toUpperCase value;
                               query_page := "1" |};
                 pageNum := 1;
                 append := false |} ] |}.
Proof.
  destruct cmp as [[recs ld err sym pg more] flying].
  cbn [step view symbol]. unfold symbolEffect, handleSymbolChange.
  cbn [symbol setSymbol].
  destruct (String.eqb_spec sym (toUpperCase value)) as [Hsame | Hdiff].
  - unfold commit. cbn. rewrite app_nil_r. rewrite <- Hsame. reflexivity.
  - reflexivity.
Qed.

(** The symbol change of [step] is the one over the built-in, at the ASCII
    [toUpperCase]. *)
Lemma step_symbol_change_instance (cmp : Component) (value : string) :
  step cmp (SymbolChange value) = symbolChangeWith toUpperCase cmp value.
Proof. reflexivity. Qed.

(** X1: whatever the built-in gives, a symbol change whose upper-case form
    is the symbol already stored changes nothing and sends nothing; any other
    one stores the new symbol, sets [loading] and sends exactly one request,
    for page 1 of the new symbol with [append = false], after the requests
    already in flight. *)
Theorem symbol_change_refetches_when_changed
    (upper : string -> string) (cmp : Component) (value : string) :
  symbolChangeWith upper cmp value =
  if String.eqb (symbol (view cmp)) (upper value)
  then cmp
  else {| view := setLoading true (setSymbol (upper value) (view cmp));
          inflight :=
            inflight cmp ++
            [ {| request := {| apiName := "stockApi"; path := "/stock";
                               query_symbol := upper value;
                               query_page := "1" |};
                 pageNum := 1;
                 append := false |} ] |}.
Proof.
  destruct cmp as [[recs ld err sym pg more] flying].
  unfold symbolChangeWith, symbolEffect, handleSymbolChangeWith.
  cbn [view symbol setSymbol].
  destruct (String.eqb_spec sym (upper value)) as [Hsame | Hdiff].
  - unfold commit. cbn. rewrite app_nil_r. rewrite <- Hsame. reflexivity.
  - reflexivity.
Qed.

(** X2: an ASCII input without lower-case letters is stored as typed: the
    handler neither trims nor validates, and the empty string is stored
    too. *)
Theorem upper_case_input_stored_verbatim
    (upper : string -> string) (value : string) (st : ViewState) :
  AgreesOnAscii upper ->
  isAscii value = true ->
  hasLower value = false ->
  handleSymbolChangeWith upper value st = setSymbol value st /\
  symbol (handleSymbolChangeWith upper value st) = value.
Proof.
  intros Hascii Hvalue Hupper. unfold handleSymbolChangeWith.
  rewrite (Hascii value Hvalue), (toUpperCase_fixes_upper value Hupper).
  split; reflexivity.
Qed.

(** An input with a dot, a space and a digit, and the empty input. *)
Lemma upper_case_input_stored_verbatim_witness :
  AgreesOnAscii toUpperCase /\
  isAscii "BRK.B 2" = true /\
  hasLower "BRK.B 2" = false /\
  (handleSymbolChangeWith toUpperCase "BRK.B 2" initialState
     = setSymbol "BRK.B 2" initialState /\
   symbol (handleSymbolChangeWith toUpperCase "BRK.B 2" initialState)
     = "BRK.B 2") /\
  symbol (handleSymbolChangeWith toUpperCase "" initialState) = "".
Proof.
  split; [exact toUpperCase_agrees_on_ascii |].
  split; [reflexivity | split; [reflexivity | split]].
  - exact (upper_case_input_stored_verbatim toUpperCase "BRK.B 2"
             initialState toUpperCase_agrees_on_ascii eq_refl eq_refl).
  - exact (proj2 (upper_case_input_stored_verbatim toUpperCase ""
                    initialState toUpperCase_agrees_on_ascii
                    eq_refl eq_refl)).
Defined.

Lemma step_loading_inflight (cmp : Component) (ev : Event) :
  (loading (view cmp) = true -> inflight cmp <> []) ->
  loading (view (step cmp ev)) = true -> inflight (step cmp ev) <> [].
Proof.
  intros Hinv.
  destruct ev as [value | | | n out];
    [rewrite step_symbol_change | cbn [step] ..].
  - destruct (String.eqb _ _); [exact Hinv |]. cbn [view inflight].
    intros _ Hnil. apply app_eq_nil in Hnil. destruct Hnil as [_ Hnil].
    discriminate Hnil.
  - intros _ Hnil. apply app_eq_nil in Hnil. destruct Hnil as [_ Hnil].
    discriminate Hnil.
  - unfold loadMore, commit.
    destruct (hasMore (view cmp)); cbn.
    + intros _ Hnil. apply app_eq_nil in Hnil. destruct Hnil as [_ Hnil].
      discriminate Hnil.
    + rewrite app_nil_r. exact Hinv.
  - destruct (nth_error (inflight cmp) n) as [call|]; [|exact Hinv].
    cbn [view].
    destruct out as [response | cause].
    + rewrite settle_resolved. cbn. discriminate.
    + rewrite settle_rejected. cbn. discriminate.
Qed.

Lemma reachable_loading_inflight (cmp : Component) :
  Reachable cmp -> loading (view cmp) = true -> inflight cmp <> [].
Proof.
  induction 1 as [|cmp ev _ IH _].
  - intros _. discriminate.
  - apply step_loading_inflight. exact IH.
Qed.

(** X3: in every reachable state, when [loading] is true (the loading
    indicator is on the page) a request is in flight: the indicator never
    stays on with nothing to wait for. *)
Theorem loading_has_request_in_flight (cmp : Component) :
  Reachable cmp ->
  loading (view cmp) = true ->
  inflight cmp <> [].
Proof. apply reachable_loading_inflight. Qed.

(** Right after the mount: [loading] is true, one request is in flight. *)
Lemma loading_has_request_in_flight_witness :
  Reachable mount /\ loading (view mount) = true /\ inflight mount <> [].
Proof.
  split; [apply reach_mount | split; [reflexivity |]].
  apply (loading_has_request_in_flight mount reach_mount). reflexivity.
Defined.

Lemma first_page_well_formed (sym : string) :
  RequestWellFormed
    {| request := {| apiName := "stockApi"; path := "/stock";
                     query_symbol := sym;
                     query_page := number_toString 1 |};
       pageNum := 1;
       append := false |}.
Proof. repeat split. Qed.

Lemma step_requests_well_formed (cmp : Component) (ev : Event) :
  0 < page (view cmp) ->
  Forall RequestWellFormed (inflight cmp) ->
  Forall RequestWellFormed (inflight (step cmp ev)).
Proof.
  intros Hpage Hall.
  destruct ev as [value | | | n out].
  - rewrite step_symbol_change.
    destruct (String.eqb _ _); [exact Hall |].
    cbn [inflight]. apply Forall_app. split; [exact Hall |].
    constructor; [apply first_page_well_formed | constructor].
  - cbn. apply Forall_app. split; [exact Hall |].
    constructor; [apply first_page_well_formed | constructor].
  - cbn [step]. unfold loadMore, commit.
    destruct (hasMore (view cmp)); cbn.
    + apply Forall_app. split; [exact Hall |].
      constructor; [|constructor].
      repeat split. cbn. lia.
    + rewrite app_nil_r. exact Hall.
  - rewrite settle_inflight. apply removeAt_Forall. exact Hall.
Qed.

(** X4: every request in flight in a reachable state goes to the API
    "stockApi" at "/stock", carries the decimal digits of its page, and asks
    for page 1 when it replaces the records and for a page from 2 on when
    it appends: the API is never asked for a page below 1. *)
Theorem requests_are_well_formed (cmp : Component) (call : Pending) :
  Reachable cmp ->
  In call (inflight cmp) ->
  RequestWellFormed call /\ 1 <= pageNum call.
Proof.
  intros Hreach.
  assert (Hall : Forall RequestWellFormed (inflight cmp)).
  { induction Hreach as [|cmp ev Hreach IH _].
    - constructor; [apply first_page_well_formed | constructor].
    - apply step_requests_well_formed; [|exact IH].
      apply (reachable_pages_positive cmp Hreach). }
  intros Hin.
  rewrite Forall_forall in Hall. specialize (Hall call Hin).
  split; [exact Hall |].
  destruct Hall as (_ & _ & _ & Hpage).
  destruct (append call); lia.
Qed.

(** The load-more request sent after the first page arrived. *)
Lemma requests_are_well_formed_witness :
  let cmp := run mount
      [Settle 0 (Resolved {| resp_data := fiveBars; resp_hasMore := true |});
       ClickLoadMore] in
  let call := {| request := {| apiName := "stockApi"; path := "/stock";
                               query_symbol := "AAPL"; query_page := "2" |};
                 pageNum := 2; append := true |} in
  Reachable cmp /\ In call (inflight cmp) /\
  (RequestWellFormed call /\ 1 <= pageNum call).
Proof.
  assert (Hreach : Reachable (run mount
      [Settle 0 (Resolved {| resp_data := fiveBars; resp_hasMore := true |});
       ClickLoadMore])).
  { unfold run. cbn [fold_left].
    repeat (apply reach_step; [| reflexivity]).
    apply reach_mount. }
  split; [exact Hreach | split; [left; reflexivity |]].
  apply (requests_are_well_formed _ _ Hreach). left. reflexivity.
Defined.

Lemma step_symbols_upper (cmp : Component) (ev : Event) :
  SymbolsUpper cmp -> SymbolsUpper (step cmp ev).
Proof.
  intros [Hsym Hall].
  destruct ev as [value | | | n out].
  - rewrite step_symbol_change.
    destruct (String.eqb _ _); [split; assumption |].
    split; cbn.
    + apply toUpperCase_no_lower.
    + apply Forall_app. split; [exact Hall |].
      constructor; [apply toUpperCase_no_lower | constructor].
  - split; cbn.
    + exact Hsym.
    + apply Forall_app. split; [exact Hall |].
      constructor; [exact Hsym | constructor].
  - cbn [step]. unfold loadMore, commit.
    destruct (hasMore (view cmp)); split; cbn; try exact Hsym.
    + apply Forall_app. split; [exact Hall |].
      constructor; [exact Hsym | constructor].
    + rewrite app_nil_r. exact Hall.
  - split.
    + cbn [step].
      destruct (nth_error (inflight cmp) n) as [call|]; [|exact Hsym].
      cbn [view].
      destruct out as [response | cause];
        [rewrite settle_resolved | rewrite settle_rejected]; exact Hsym.
    + rewrite settle_inflight. apply removeAt_Forall. exact Hall.
Qed.

(** X5: in every reachable state the stored symbol holds no lower-case
    letter, and neither does the symbol of any request in flight: the API is
    never queried with a lower-case symbol. *)
Theorem symbols_are_upper_case (cmp : Component) :
  Reachable cmp ->
  hasLower (symbol (view cmp)) = false /\
  (forall call : Pending,
      In call (inflight cmp) ->
      hasLower (query_symbol (request call)) = false).
Proof.
  intros Hreach.
  assert (Hinv : SymbolsUpper cmp).
  { induction Hreach as [|cmp ev _ IH _].
    - split; [reflexivity |].
      constructor; [reflexivity | constructor].
    - apply step_symbols_upper. exact IH. }
  destruct Hinv as [Hsym Hall].
  split; [exact Hsym |].
  rewrite Forall_forall in Hall. exact Hall.
Qed.

(** After the first page, "tsla" is typed: symbol and request hold "TSLA". *)
Lemma symbols_are_upper_case_witness :
  let cmp := run mount
      [Settle 0 (Resolved {| resp_data := fiveBars; resp_hasMore := true |});
       SymbolChange "tsla"] in
  Reachable cmp /\
  symbol (view cmp) = "TSLA" /\
  (hasLower (symbol (view cmp)) = false /\
   (forall call : Pending,
       In call (inflight cmp) ->
       hasLower (query_symbol (request call)) = false)).
Proof.
  assert (Hreach : Reachable (run mount
      [Settle 0 (Resolved {| resp_data := fiveBars; resp_hasMore := true |});
       SymbolChange "tsla"])).
  { unfold run. cbn [fold_left].
    repeat (apply reach_step; [| reflexivity]).
    apply reach_mount. }
  split; [exact Hreach | split; [reflexivity |]].
  apply (symbols_are_upper_case _ Hreach).
Defined.

Lemma removeAt_length {A : Type} (n : nat) (xs : list A) :
  (n < List.length xs)%nat ->
  S (List.length (removeAt n xs)) = List.length xs.
Proof.
  revert n.
  induction xs as [|y ys IH]; intros n Hlt; cbn in Hlt; [lia |].
  destruct n as [|n].
  - reflexivity.
  - change (removeAt (S n) (y :: ys)) with (y :: removeAt n ys).
    cbn. f_equal. apply IH. lia.
Qed.

(** X6: once an error is shown, the page offers no control: the only events
    left are settlements of requests already in flight, and each takes one
    request away.  No request is ever sent again. *)
Theorem error_stops_requests
    (cmp : Component) (msg : string) (ev : Event) :
  Reachable cmp ->
  error (view cmp) = Some msg ->
  enabled cmp ev = true ->
  (exists (n : nat) (out : Outcome), ev = Settle n out) /\
  S (List.length (inflight (step cmp ev))) = List.length (inflight cmp).
Proof.
  intros Hreach Herr Hen.
  assert (Hrender : render (view cmp) = ErrorMessage fetchFailed).
  { apply render_error.
    destruct (reachable_error_literal cmp Hreach) as [Hnone | Hlit];
      congruence. }
  destruct ev as [value | | | n out]; cbn [enabled] in Hen;
    try (rewrite Hrender in Hen; discriminate Hen).
  split; [exists n, out; reflexivity |].
  rewrite settle_inflight. apply removeAt_length.
  apply Nat.ltb_lt. exact Hen.
Qed.

(** The mount request fails while a submit is in flight; the submit's
    response can still arrive, and nothing else can happen. *)
Lemma error_stops_requests_witness :
  let cmp := run mount [Submit; Settle 0 (Rejected TransportError)] in
  let ev := Settle 0 (Resolved {| resp_data := fiveBars;
                                  resp_hasMore := true |}) in
  Reachable cmp /\
  error (view cmp) = Some "Failed to fetch data" /\
  enabled cmp ev = true /\
  ((exists (n : nat) (out : Outcome), ev = Settle n out) /\
   S (List.length (inflight (step cmp ev))) = List.length (inflight cmp)).
Proof.
  assert (Hreach :
    Reachable (run mount [Submit; Settle 0 (Rejected TransportError)])).
  { unfold run. cbn [fold_left].
    repeat (apply reach_step; [| reflexivity]).
    apply reach_mount. }
  split; [exact Hreach | split; [reflexivity | split; [reflexivity |]]].
  apply (error_stops_requests _ "Failed to fetch data" _ Hreach);
    reflexivity.
Defined.

Lemma settleAll_cons (cr : Pending * Response)
    (rest : list (Pending * Response)) (st : ViewState) :
  settleAll (cr :: rest) st =
  settleAll rest (fetchData_settle (fst cr) (Resolved (snd cr)) st).
Proof. reflexivity. Qed.

Lemma settleAll_appends (arrivals : list (Pending * Response))
    (st : ViewState) :
  Forall (fun cr => append (fst cr) = true) arrivals ->
  data (settleAll arrivals st) =
  data st ++ List.concat (map (fun cr => resp_data (snd cr)) arrivals).
Proof.
  revert st.
  induction arrivals as [|cr rest IH]; intros st Hall.
  - cbn. symmetry. apply app_nil_r.
  - inversion Hall as [|? ? Hcr Hrest]; subst.
    rewrite settleAll_cons, (IH _ Hrest), settle_resolved.
    cbn [data map List.concat]. rewrite Hcr. symmetry. apply app_assoc.
Qed.

Lemma settleAll_last (cr d : Pending * Response)
    (rest : list (Pending * Response)) (st : ViewState) :
  page (settleAll (cr :: rest) st) = pageNum (fst (last (cr :: rest) d)) /\
  hasMore (settleAll (cr :: rest) st)
    = resp_hasMore (snd (last (cr :: rest) d)) /\
  loading (settleAll (cr :: rest) st) = false.
Proof.
  revert cr st.
  induction rest as [|cr' rest IH]; intros cr st.
  - rewrite settleAll_cons. cbn [settleAll fold_left last].
    rewrite settle_resolved. repeat split.
  - rewrite settleAll_cons.
    change (last (cr :: cr' :: rest) d) with (last (cr' :: rest) d).
    apply IH.
Qed.

(** X7: when the response of a replacing fetch arrives, followed by the
    responses of any number of appending fetches, the records are the
    concatenation of the pages in the order of arrival, whatever was held
    before; [page] and [hasMore] are those of the last arrival and [loading]
    is false. *)
Theorem pages_concatenate_in_arrival_order
    (first : Pending * Response) (rest : list (Pending * Response))
    (st : ViewState) :
  append (fst first) = false ->
  Forall (fun cr => append (fst cr) = true) rest ->
  data (settleAll (first :: rest) st) =
    List.concat (map (fun cr => resp_data (snd cr)) (first :: rest)) /\
  page (settleAll (first :: rest) st)
    = pageNum (fst (last (first :: rest) first)) /\
  hasMore (settleAll (first :: rest) st)
    = resp_hasMore (snd (last (first :: rest) first)) /\
  loading (settleAll (first :: rest) st) = false.
Proof.
  intros Hfirst Hrest.
  split; [|apply settleAll_last].
  rewrite settleAll_cons, (settleAll_appends rest _ Hrest), settle_resolved.
  cbn [data map List.concat]. rewrite Hfirst. reflexivity.
Qed.

(** Page 1 with five bars, then pages 2 and 3 with one bar each. *)
Lemma pages_concatenate_in_arrival_order_witness :
  let req := fun n => {| apiName := "stockApi"; path := "/stock";
                         query_symbol := "AAPL";
                         query_page := number_toString n |} in
  let first := ({| request := req 1; pageNum := 1; append := false |},
                {| resp_data := fiveBars; resp_hasMore := true |}) in
  let rest := [({| request := req 2; pageNum := 2; append := true |},
                {| resp_data := [bar 1700000300000]; resp_hasMore := true |});
               ({| request := req 3; pageNum := 3; append := true |},
                {| resp_data := [bar 1700000360000];
                   resp_hasMore := false |})] in
  let st := settleAll (first :: rest) (view mount) in
  append (fst first) = false /\
  Forall (fun cr => append (fst cr) = true) rest /\
  (data st = fiveBars ++ [bar 1700000300000; bar 1700000360000] /\
   page st = 3 /\ hasMore st = false /\ loading st = false).
Proof.
  intros req first rest st.
  assert (Hrest : Forall (fun cr => append (fst cr) = true) rest)
    by (repeat constructor).
  split; [reflexivity | split; [exact Hrest |]].
  exact (pages_concatenate_in_arrival_order
           first rest (view mount) eq_refl Hrest).
Defined.

(** X8: [loadMore] called again before its first request has settled sends
    the same request once more ([page] has not moved), and when both
    responses arrive both are appended while [page] advances by one only. *)
Theorem repeated_load_more_asks_same_page
    (st : ViewState) (r1 r2 : Response) (call : Pending) :
  hasMore st = true ->
  In call (snd (loadMore st)) ->
  snd (loadMore (fst (loadMore st))) = snd (loadMore st) /\
  data (fetchData_settle call (Resolved r2)
          (fetchData_settle call (Resolved r1)
             (fst (loadMore (fst (loadMore st))))))
    = data st ++ resp_data r1 ++ resp_data r2 /\
  page (fetchData_settle call (Resolved r2)
          (fetchData_settle call (Resolved r1)
             (fst (loadMore (fst (loadMore st))))))
    = page st + 1.
Proof.
  intros Hmore Hcall.
  assert (Hfirst : loadMore st = fetchData (page st + 1) true st).
  { unfold loadMore. rewrite Hmore. reflexivity. }
  assert (Hsecond : loadMore (fst (loadMore st))
                    = fetchData (page st + 1) true (setLoading true st)).
  { rewrite Hfirst. unfold loadMore.
    cbn [fst fetchData hasMore setLoading page]. rewrite Hmore.
    reflexivity. }
  rewrite Hsecond. rewrite Hfirst in *.
  apply fetchData_issues in Hcall. destruct Hcall as (Hpage & Happend & _).
  split; [reflexivity |].
  rewrite !settle_resolved. cbn [data page]. rewrite Happend, Hpage.
  split; [symmetry; apply app_assoc | reflexivity].
Qed.

(** Five records held, page 1: two calls, two responses of one bar. *)
Lemma repeated_load_more_asks_same_page_witness :
  let st := {| data := fiveBars; loading := false; error := None;
               symbol := "AAPL"; page := 1; hasMore := true |} in
  let call := {| request := {| apiName := "stockApi"; path := "/stock";
                               query_symbol := "AAPL"; query_page := "2" |};
                 pageNum := 2; append := true |} in
  let r := {| resp_data := [bar 1700000300000]; resp_hasMore := true |} in
  let final := fetchData_settle call (Resolved r)
                 (fetchData_settle call (Resolved r)
                    (fst (loadMore (fst (loadMore st))))) in
  hasMore st = true /\ In call (snd (loadMore st)) /\
  (snd (loadMore (fst (loadMore st))) = snd (loadMore st) /\
   data final = fiveBars ++ [bar 1700000300000] ++ [bar 1700000300000] /\
   page final = 2).
Proof.
  cbv zeta.
  split; [reflexivity | split; [left; reflexivity |]].
  apply (repeated_load_more_asks_same_page
           {| data := fiveBars; loading := false; error := None;
              symbol := "AAPL"; page := 1; hasMore := true |}).
  - reflexivity.
  - left. reflexivity.
Defined.




Lemma to_int_not_nil (n : Z) :
  Z.to_int n <> Decimal.Pos Decimal.Nil /\
  Z.to_int n <> Decimal.Neg Decimal.Nil.
Proof.
  split; intros Hnil;
    pose proof (DecimalZ.of_to n) as Hback;
    rewrite Hnil in Hback; cbn in Hback; subst n; discriminate Hnil.
Qed.

(** X10: the page written in the query string identifies the page: two
    page numbers with the same digits are equal, so two requests of
    [fetchData] are the same request exactly when they ask for the same
    page of the same symbol. *)
Theorem request_identifies_symbol_and_page
    (n m : Z) (a b : bool) (st st' : ViewState) :
  map request (snd (fetchData n a st)) = map request (snd (fetchData m b st'))
  <-> (n = m /\ symbol st = symbol st').
Proof.
  cbn [fetchData snd map request]. split.
  - intros Heq. injection Heq as Hsym Hpage.
    split; [|exact Hsym].
    unfold number_toString in Hpage.
    destruct (to_int_not_nil n) as [Hn1 Hn2].
    destruct (to_int_not_nil m) as [Hm1 Hm2].
    pose proof (NilZero.isi (Z.to_int n) Hn1 Hn2) as Hpn.
    pose proof (NilZero.isi (Z.to_int m) Hm1 Hm2) as Hpm.
    rewrite Hpage in Hpn. rewrite Hpn in Hpm.
    injection Hpm as Hints.
    rewrite <- (DecimalZ.of_to n), <- (DecimalZ.of_to m), Hints.
    reflexivity.
  - intros [Hpage Hsym]. subst m. rewrite Hsym. reflexivity.
Qed.

(** ** The chart *)

Lemma replay_app (log more : list ChartCall) :
  replay (log ++ more) = fold_left replayCall more (replay log).
Proof. unfold replay. apply fold_left_app. Qed.

Lemma dataCleanup_clears (s : ChartSink) : chartRef (dataCleanup s) = None.
Proof.
  unfold dataCleanup. destruct (chartRef s) eqn:Href; [reflexivity | exact Href].
Qed.

Lemma dataCleanup_consistent (s : ChartSink) :
  SinkConsistent s -> replay (calls (dataCleanup s)) = Some [].
Proof.
  unfold SinkConsistent, aliveOf, dataCleanup. intros Hs.
  destruct (chartRef s) as [id|]; [|exact Hs].
  cbn [calls]. rewrite replay_app, Hs. cbn.
  rewrite Nat.eqb_refl. reflexivity.
Qed.

Lemma dataEffect_consistent (attached : bool) (recs : list StockData)
    (s : ChartSink) :
  SinkConsistent s -> SinkConsistent (dataEffect attached recs s).
Proof.
  unfold SinkConsistent, aliveOf, dataEffect. intros Hs.
  destruct (chartEffect attached recs) as [points|]; [|exact Hs].
  destruct (chartRef s) as [id|]; cbn [calls chartRef];
    rewrite replay_app, Hs; cbn; rewrite ?Nat.eqb_refl; cbn;
    rewrite ?Nat.eqb_refl; reflexivity.
Qed.

Lemma cleanup_then_effect_consistent (attached : bool)
    (recs : list StockData) (s : ChartSink) :
  SinkConsistent s ->
  SinkConsistent (dataEffect attached recs (dataCleanup s)).
Proof.
  intros Hs. apply dataEffect_consistent.
  unfold SinkConsistent, aliveOf.
  rewrite dataCleanup_clears. apply dataCleanup_consistent. exact Hs.
Qed.

Lemma reachable_sink_consistent (p : Page) :
  PageReachable p -> SinkConsistent (sink p).
Proof.
  induction 1 as [|p ev _ IH _].
  - reflexivity.
  - cbn [pageStep sink].
    destruct (dataChanged (component p) ev); [|exact IH].
    apply cleanup_then_effect_consistent. exact IH.
Qed.

(** X11: the component uses the chart library by its protocol, in every
    reachable state: it never creates a chart it already has, never draws on
    or removes a chart that is not alive, and the only chart alive is the one
    in [chartRef]; after the unmount no chart is left alive. *)
Theorem chart_is_never_leaked (p : Page) :
  PageReachable p ->
  replay (calls (sink p)) = Some (aliveOf (sink p)) /\
  replay (calls (unmount p)) = Some [] /\
  chartRef (unmount p) = None.
Proof.
  intros Hreach.
  pose proof (reachable_sink_consistent p Hreach) as Hs.
  split; [exact Hs | split].
  - apply dataCleanup_consistent. exact Hs.
  - apply dataCleanup_clears.
Qed.

(** Two pages arrive: the chart of the first one is removed, the chart of
    the second one is alive until the unmount. *)
Lemma chart_is_never_leaked_witness :
  let p := pageStep
             (pageStep
                (pageStep pageMount
                   (Settle 0 (Resolved {| resp_data := fiveBars;
                                          resp_hasMore := true |})))
                ClickLoadMore)
             (Settle 0 (Resolved {| resp_data := [bar 1700000300000];
                                    resp_hasMore := false |})) in
  PageReachable p /\
  aliveOf (sink p) = [1%nat] /\
  (replay (calls (sink p)) = Some (aliveOf (sink p)) /\
   replay (calls (unmount p)) = Some [] /\
   chartRef (unmount p) = None).
Proof.
  intros p.
  assert (Hreach : PageReachable p).
  { unfold p.
    repeat (apply page_reach_step; [| reflexivity]).
    apply page_reach_mount. }
  split; [exact Hreach | split; [reflexivity |]].
  exact (chart_is_never_leaked p Hreach).
Defined.

Lemma step_data_unchanged (cmp : Component) (ev : Event) :
  dataChanged cmp ev = false ->
  data (view (step cmp ev)) = data (view cmp).
Proof.
  intros Hsame.
  destruct ev as [value | | | n out].
  - rewrite step_symbol_change. destruct (String.eqb _ _); reflexivity.
  - reflexivity.
  - cbn [step]. unfold loadMore.
    destruct (hasMore (view cmp)); reflexivity.
  - cbn [step dataChanged] in *.
    destruct (nth_error (inflight cmp) n) as [call|]; [|reflexivity].
    destruct out as [response | cause]; [discriminate Hsame |].
    cbn [view]. rewrite settle_rejected. reflexivity.
Qed.

Lemma cleanup_then_effect_draws (attached : bool) (recs : list StockData)
    (s : ChartSink) (id : nat) :
  chartRef (dataEffect attached recs (dataCleanup s)) = Some id ->
  recs <> [] /\
  calls (dataEffect attached recs (dataCleanup s)) =
  calls (dataCleanup s) ++ [CreateChart id 600 300;
                            AddCandlestickSeries id;
                            SeriesSetData id (map toPoint recs)].
Proof.
  unfold dataEffect, chartEffect.
  rewrite (dataCleanup_clears s).
  destruct attached; cbn [andb].
  - destruct recs as [|d rest]; cbn -[map].
    + rewrite (dataCleanup_clears s). discriminate.
    + intros Hid. injection Hid as Hid. subst id.
      split; [discriminate | reflexivity].
  - rewrite (dataCleanup_clears s). discriminate.
Qed.

Lemma reachable_chart_shows_data (p : Page) :
  PageReachable p -> ChartShowsData p.
Proof.
  induction 1 as [|p ev _ IH _]; intros id Href.
  - discriminate Href.
  - cbn [pageStep sink component] in *.
    destruct (dataChanged (component p) ev) eqn:Hchanged.
    + apply cleanup_then_effect_draws in Href.
      destruct Href as [Hrecs Hcalls].
      split; [exact Hrecs |].
      exists (calls (dataCleanup (sink p))). exact Hcalls.
    + rewrite (step_data_unchanged _ _ Hchanged).
      apply IH. exact Href.
Qed.

(** X12: in every reachable state, a chart held in [chartRef] was created
    (600 by 300) for the records now held, which are not empty, and carries
    a single series whose points are the transforms of these records, in
    order: the last three calls on the library create it, add the series
    and give it the points. *)
Theorem chart_shows_current_records (p : Page) (id : nat) :
  PageReachable p ->
  chartRef (sink p) = Some id ->
  data (view (component p)) <> [] /\
  exists earlier : list ChartCall,
    calls (sink p) =
    earlier ++ [CreateChart id 600 300;
                AddCandlestickSeries id;
                SeriesSetData id (map toPoint (data (view (component p))))].
Proof.
  intros Hreach Href.
  exact (reachable_chart_shows_data p Hreach id Href).
Qed.

(** After the first page the chart 0 shows the five bars. *)
Lemma chart_shows_current_records_witness :
  let p := pageStep pageMount
             (Settle 0 (Resolved {| resp_data := fiveBars;
                                    resp_hasMore := true |})) in
  PageReachable p /\
  chartRef (sink p) = Some 0%nat /\
  (data (view (component p)) <> [] /\
   exists earlier : list ChartCall,
     calls (sink p) =
     earlier ++ [CreateChart 0 600 300;
                 AddCandlestickSeries 0;
                 SeriesSetData 0
                   (map toPoint (data (view (component p))))]).
Proof.
  intros p.
  assert (Hreach : PageReachable p).
  { unfold p. apply page_reach_step; [apply page_reach_mount | reflexivity]. }
  split; [exact Hreach | split; [reflexivity |]].
  exact (chart_shows_current_records p 0%nat Hreach eq_refl).
Defined.

(** X13: a response that leaves no records, or that arrives while the error
    message is shown, removes the chart and draws none: no chart is ever
    created for an empty series or without its container. *)
Theorem no_chart_without_records_or_container
    (p : Page) (n : nat) (call : Pending) (response : Response) :
  nth_error (inflight (component p)) n = Some call ->
  data (view (step (component p) (Settle n (Resolved response)))) = [] \/
  truthy (error (view (component p))) = true ->
  chartRef (sink (pageStep p (Settle n (Resolved response)))) = None /\
  calls (sink (pageStep p (Settle n (Resolved response))))
    = calls (dataCleanup (sink p)).
Proof.
  intros Hnth Hnothing.
  cbn [pageStep sink dataChanged]. rewrite Hnth.
  assert (Hnone :
    chartEffect
      (containerAttached
         (view (step (component p) (Settle n (Resolved response)))))
      (data (view (step (component p) (Settle n (Resolved response)))))
    = None).
  { destruct Hnothing as [Hempty | Herr].
    - rewrite Hempty. unfold chartEffect.
      destruct (containerAttached _); reflexivity.
    - cbn [step]. rewrite Hnth. cbn [view]. rewrite settle_resolved.
      unfold containerAttached, render, chartEffect. cbn [error].
      destruct (error (view (component p))) as [[|ch msg]|];
        try discriminate Herr. reflexivity. }
  unfold dataEffect. rewrite Hnone.
  split; [apply dataCleanup_clears | reflexivity].
Qed.

(** The chart of the first page is removed by an empty replacement page. *)
Lemma no_chart_without_records_or_container_witness :
  let p := pageStep
             (pageStep pageMount
                (Settle 0 (Resolved {| resp_data := fiveBars;
                                       resp_hasMore := true |})))
             Submit in
  let call := {| request := {| apiName := "stockApi"; path := "/stock";
                               query_symbol := "AAPL"; query_page := "1" |};
                 pageNum := 1; append := false |} in
  let response := {| resp_data := []; resp_hasMore := false |} in
  nth_error (inflight (component p)) 0 = Some call /\
  (data (view (step (component p) (Settle 0 (Resolved response)))) = [] \/
   truthy (error (view (component p))) = true) /\
  chartRef (sink p) = Some 0%nat /\
  (chartRef (sink (pageStep p (Settle 0 (Resolved response)))) = None /\
   calls (sink (pageStep p (Settle 0 (Resolved response))))
     = calls (dataCleanup (sink p))).
Proof.
  intros p call response.
  split; [reflexivity | split; [left; reflexivity | split; [reflexivity |]]].
  exact (no_chart_without_records_or_container p 0 call response
           eq_refl (or_introl eq_refl)).
Defined.

(** ** The rendered page *)

(** X14: whatever the state, the page shows either the error message alone
    or the form with the stored symbol in its input; the loading indicator
    and the Load More button are never on the page together, and while no
    error is shown and nothing is loading the button is there exactly when
    [hasMore] holds. *)
Theorem loading_and_load_more_exclude (st : ViewState) :
  rendersLoading (render st) && rendersLoadMore (render st) = false /\
  rendersForm (render st) = negb (truthy (error st)) /\
  rendersLoading (render st) = loading st && negb (truthy (error st)) /\
  (forall ui : NormalView,
      render st = Normal ui ->
      input_value ui = symbol st /\
      load_more_button ui = hasMore st && negb (loading st)).
Proof.
  split; [|split; [|split]].
  - unfold render.
    destruct (error st) as [[|ch msg]|]; cbn;
      destruct (loading st), (hasMore st); reflexivity.
  - unfold render. destruct (error st) as [[|ch msg]|]; reflexivity.
  - unfold render.
    destruct (error st) as [[|ch msg]|]; cbn;
      destruct (loading st); reflexivity.
  - intros ui Hui. unfold render in Hui.
    destruct (error st) as [[|ch msg]|]; cbn in Hui;
      try discriminate Hui;
      injection Hui as Hui; subst ui; split; reflexivity.
Qed.
